(** * TDMA slot-timing model and feasibility simulator

    A shallow embedding of [firmware/tests/sync_timing_stress.py]:
    the slot-width and frame-time functions, the cut-point partition
    sampler, the success-rate estimate and the simulation loop of [run].

    Python integers are unbounded, so they are [Z]; Python floats are
    IEEE 754 binary64, so they are the kernel's [float]; a raised
    exception is [None] in the option monad. *)

From Stdlib Require Import ZArith QArith Qabs Lia Floats Uint63.
From stdpp Require Import base option list list_numbers sorting.

Local Open Scope Z_scope.

(* Decimal float literals denote the nearest binary64 number, as in Python. *)
Set Warnings "-inexact-float".

(** ** Timing constants (mirror TDMAProtocol.h) *)

Definition TDMA_FRAME_PERIOD_MS : Z := 20.
Definition TDMA_FRAME_PERIOD_US : Z := TDMA_FRAME_PERIOD_MS * 1000.
Definition TDMA_BEACON_DURATION_US : Z := 500.
Definition TDMA_FIRST_SLOT_GAP_US : Z := 500.
Definition TDMA_GUARD_TIME_US : Z := 2000.
Definition TDMA_SLOT_MIN_WIDTH_US : Z := 2500.
Definition TDMA_SENSOR_DATA_SIZE : Z := 25.
Definition TDMA_DATA_HEADER_SIZE : Z := 8.
Definition TDMA_SAMPLES_PER_FRAME : Z := 4.

Definition FIXED_OVERHEAD_US : Z := 1500.
Definition INTER_SLOT_GAP_US : Z := 100.

(** 802.11g OFDM constants *)
Definition OFDM_PREAMBLE_US : Z := 20.
Definition OFDM_N_DBPS : Z := 24.
Definition OFDM_SYMBOL_US : Z := 4.
Definition OFDM_SIFS_US : Z := 10.
Definition OFDM_ACK_US : Z := 44.
Definition FRAME_OVERHEAD_BYTES : Z := 38.

(** Stress parameters *)
Definition RANDOM_DISTRIBUTIONS : Z := 1000.
Definition PACKET_LOSS_PROB : float := 0.10%float.
Definition FREEWHEEL_FRAMES : Z := 2.
Definition MAX_NODES : Z := 8.
Definition MAX_TOTAL_SENSORS : Z := 16.

(** ** Slot-timing model *)

(** [calculate_slot_width]: the early return for [sensor_count <= 0],
    the OFDM airtime with its ceiling division ([//] is floor division,
    which is [Z.div] for the positive divisor used here), and the two
    clamps in the order the source applies them. *)
Definition calculate_slot_width (sensor_count : Z) : Z :=
  if sensor_count <=? 0 then 0
  else
    let payload_bytes :=
      TDMA_DATA_HEADER_SIZE
      + (TDMA_SAMPLES_PER_FRAME * sensor_count * TDMA_SENSOR_DATA_SIZE)
      + 1 in
    let ofdm_bits := 326 + 8 * payload_bytes in
    let ofdm_syms := (ofdm_bits + OFDM_N_DBPS - 1) / OFDM_N_DBPS in
    let data_frame_us := OFDM_PREAMBLE_US + OFDM_SYMBOL_US * ofdm_syms in
    let airtime_us := data_frame_us + OFDM_SIFS_US + OFDM_ACK_US in
    let total_us := FIXED_OVERHEAD_US + airtime_us in
    let total_us :=
      if total_us <? TDMA_SLOT_MIN_WIDTH_US then TDMA_SLOT_MIN_WIDTH_US
      else total_us in
    let total_us := if total_us >? 65535 then 65535 else total_us in
    total_us.

(** Python's [sum] over an iterable of integers: a left-to-right
    accumulation that starts from 0. *)
Definition py_sum (xs : list Z) : Z := fold_left Z.add xs 0.

(** [calculate_frame_time]: an empty sequence is falsy and yields the
    beacon alone. *)
Definition calculate_frame_time (sensor_counts : list Z) : Z :=
  match sensor_counts with
  | [] => TDMA_BEACON_DURATION_US
  | _ =>
    let total_slot_time := py_sum (map calculate_slot_width sensor_counts) in
    let frame_time :=
      TDMA_BEACON_DURATION_US
      + TDMA_FIRST_SLOT_GAP_US
      + total_slot_time
      + (Z.of_nat (length sensor_counts) - 1) * INTER_SLOT_GAP_US
      + TDMA_GUARD_TIME_US in
    frame_time
  end.

(** ** The random generator and [random.sample]

    The state of the generator is the sequence of raw draws it will
    still deliver, read through a cursor; quantifying over [rng]
    quantifies over every behaviour the generator can show. *)
Record rng := Rng { draws : nat -> nat; cursor : nat }.

(** [_randbelow(n)]: some integer in [[0, n)]. *)
Definition randbelow (n : nat) (g : rng) : nat * rng :=
  ((draws g (cursor g) mod n)%nat,
   {| draws := draws g; cursor := S (cursor g) |}).

(** The selection loop of the library's [sample]:
    [for i in range(k): j = randbelow(n - i); result[i] = pool[j];
     pool[j] = pool[n - i - 1]].  [todo] counts the iterations left. *)
Fixpoint sample_loop (n i todo : nat) (pool result : list Z) (g : rng)
  : list Z * rng :=
  match todo with
  | O => (result, g)
  | S todo' =>
    let '(j, g) := randbelow (n - i) g in
    let result := result ++ [pool !!! j] in
    let pool := <[j := pool !!! (n - i - 1)%nat]> pool in
    sample_loop n (S i) todo' pool result g
  end.

(** [random.sample(population, k)]: [ValueError] unless [0 <= k <= n],
    otherwise [k] elements taken at distinct positions of the
    population.  (For populations beyond a size threshold the library
    records the chosen positions in a set and redraws on a repeat
    instead of moving pool entries; the lists it can return are the
    same.) *)
Definition sample (population : list Z) (k : Z) (g : rng)
  : option (list Z * rng) :=
  let n := length population in
  if decide (0 <= k <= Z.of_nat n)
  then Some (sample_loop n 0 (Z.to_nat k) population [] g)
  else None.

(** [range(lo, hi)] and [sorted] on integers. *)
Definition py_range (lo hi : Z) : list Z := seqZ lo (hi - lo).
Definition sorted (l : list Z) : list Z := merge_sort Z.le l.

(** ** Cut-point partition *)

(** The body of [for c in cuts], on the pair [(counts, prev)]. *)
Definition cut_step (st : list Z * Z) (c : Z) : list Z * Z :=
  let '(counts, prev) := st in (counts ++ [c - prev], c).

Definition random_partition (total parts : Z) (g : rng)
  : option (list Z * rng) :=
  '(drawn, g) ← sample (py_range 1 total) (parts - 1) g;
  let cuts := sorted drawn in
  let '(counts, prev) := fold_left cut_step cuts ([], 0) in
  Some (counts ++ [total - prev], g).

(** ** Success-rate estimate *)

(** [x ** n] for a float [x] and a non-negative integer [n], as the
    product of [n] factors; [float_pow_drop_prob_nearest] below checks
    that for the one power the program takes this is the binary64
    nearest to the exact power, which is what a correctly rounded
    [pow] returns. *)
Definition float_pow (x : float) (n : Z) : float :=
  Nat.iter (Z.to_nat n) (fun acc => (acc * x)%float) 1%float.

Definition estimated_success_rate (schedule_ok : float) : float :=
  let drop_prob := float_pow PACKET_LOSS_PROB (FREEWHEEL_FRAMES + 1) in
  let beacon_ok := (1.0 - drop_prob)%float in
  (schedule_ok * beacon_ok)%float.

(** ** The simulation loop *)

Record Result := mkResult {
  total_sensors : Z;
  node_count : Z;
  schedule_ok_rate : float;
  avg_frame_us : float;
  max_frame_us : Z;
  est_success_rate : float
}.

(** [a / b] on integers is true division; the operands that occur
    here are far below 2^53, so the conversion to float is exact. *)
Definition float_of_Z (a : Z) : float := PrimFloat.of_uint63 (Uint63.of_Z a).
Definition truediv (a b : Z) : float := (float_of_Z a / float_of_Z b)%float.

(** The three accumulators of one (total, nodes) pair. *)
Record Acc := mkAcc { ok_count : Z; frame_sum : Z; frame_max : Z }.

(** One pass through the body of [for _ in range(RANDOM_DISTRIBUTIONS)]. *)
Definition trial (total nodes : Z) (a : Acc) (g : rng) : option (Acc * rng) :=
  '(counts, g) ← random_partition total nodes g;
  let frame_us := calculate_frame_time counts in
  let frame_sum := frame_sum a + frame_us in
  let frame_max := Z.max (frame_max a) frame_us in
  let ok_count :=
    if frame_us <=? TDMA_FRAME_PERIOD_US then ok_count a + 1 else ok_count a in
  Some (mkAcc ok_count frame_sum frame_max, g).

Fixpoint trials (n : nat) (total nodes : Z) (a : Acc) (g : rng)
  : option (Acc * rng) :=
  match n with
  | O => Some (a, g)
  | S n' => '(a, g) ← trial total nodes a g; trials n' total nodes a g
  end.

(** What the loop body does once the trials are over: the three
    statistics and the [Result] built from them. *)
Definition report (total nodes : Z) (a : Acc) : Result :=
  let schedule_ok := truediv (ok_count a) RANDOM_DISTRIBUTIONS in
  let avg_frame := truediv (frame_sum a) RANDOM_DISTRIBUTIONS in
  let est_success := estimated_success_rate schedule_ok in
  mkResult total nodes schedule_ok avg_frame (frame_max a) est_success.

(** The body of the inner [for nodes in ...] loop up to the append:
    the accumulators start at 0, the trials run, the row is built. *)
Definition run_pair (total nodes : Z) (g : rng) : option (Result * rng) :=
  '(a, g) ← trials (Z.to_nat RANDOM_DISTRIBUTIONS) total nodes (mkAcc 0 0 0) g;
  Some (report total nodes a, g).

(** A [for] loop whose body may raise and threads a state. *)
Fixpoint for_each {A S : Type} (xs : list A) (body : A -> S -> option S) (s : S)
  : option S :=
  match xs with
  | [] => Some s
  | x :: xs' => s ← body x s; for_each xs' body s
  end.

(** The rest of the body of the inner loop: [results.append(...)]. *)
Definition node_step (total nodes : Z) (st : list Result * rng)
  : option (list Result * rng) :=
  let '(results, g) := st in
  '(r, g) ← run_pair total nodes g;
  Some (results ++ [r], g).

(** [for nodes in range(1, min(MAX_NODES, total) + 1)]. *)
Definition nodes_loop (total : Z) (st : list Result * rng)
  : option (list Result * rng) :=
  for_each (py_range 1 (Z.min MAX_NODES total + 1)) (node_step total) st.

(** [run], up to the report it prints from [results]:
    [for total in range(1, MAX_TOTAL_SENSORS + 1)]. *)
Definition run (g : rng) : option (list Result * rng) :=
  for_each (py_range 1 (MAX_TOTAL_SENSORS + 1)) nodes_loop ([], g).

(** ** Reference notions used in the statements *)

(** The mathematical sum of a list of integers. *)
Definition sum_Z (xs : list Z) : Z := foldr Z.add 0 xs.

(** The total slot time of a sensor assignment. *)
Definition slot_total (l : list Z) : Z := sum_Z (map calculate_slot_width l).

(** The consecutive differences of a cut list, starting from [prev]. *)
Fixpoint diffs (prev : Z) (cuts : list Z) : list Z :=
  match cuts with
  | [] => []
  | c :: cs => (c - prev) :: diffs c cs
  end.

(** The value [prev] holds when the loop over the cuts ends. *)
Fixpoint last_cut (prev : Z) (cuts : list Z) : Z :=
  match cuts with
  | [] => prev
  | c :: cs => last_cut c cs
  end.

(** The iteration space of the two nested loops of [run]. *)
Definition run_pairs : list (Z * Z) :=
  total ← py_range 1 (MAX_TOTAL_SENSORS + 1);
  nodes ← py_range 1 (Z.min MAX_NODES total + 1);
  [(total, nodes)].

(** The exact rational value of a finite binary64 number, and half a
    unit in its last place. *)
Definition float_to_Q (f : float) : option Q :=
  match Prim2SF f with
  | S754_zero _ => Some 0%Q
  | S754_finite s m e =>
      let v := (inject_Z (Z.pos m) * Qpower 2 e)%Q in
      Some (if s then Qopp v else v)
  | _ => None
  end.

Definition half_ulp (f : float) : Q :=
  match Prim2SF f with
  | S754_finite _ _ e => Qpower 2 (e - 1)
  | _ => 0%Q
  end.

(** [f] lies within half a unit in its last place of the rational [q]:
    no binary64 number is closer to [q]. *)
Definition rounds_to (q : Q) (f : float) : Prop :=
  match float_to_Q f with
  | Some v => (Qabs (v - q) <= half_ulp f)%Q
  | None => False
  end.

(** The pair a result row reports. *)
Definition pair_of (r : Result) : Z * Z := (total_sensors r, node_count r).

(** A row that [run_pair] returned for the row's own pair, in some
    state of the generator. *)
Definition from_run_pair (r : Result) : Prop :=
  exists g1 g2, run_pair (total_sensors r) (node_count r) g1 = Some (r, g2).

(** The pairs reported by the rows a loop state holds. *)
Definition rows (st : list Result * rng) : list (Z * Z) := pair_of <$> st.1.

(** A concrete generator, for evaluating the model. *)
Definition demo_rng : rng := Rng (fun i => (7 * i + 3)%nat) 0.

(** ** The report's recommendation list *)

(** The rows printed under "Configs meeting >=0.99 estimated success":
    [for r in results: if r.est_success_rate >= 0.99: print(...)]. *)
Definition meets_target (r : Result) : bool :=
  (0.99 <=? est_success_rate r)%float.


(** ** Calibration summary

    The arithmetic of [firmware/scripts/calibrate_tdma_slots.py]: the
    three lists of readings it fills and the summary it computes from
    them.  Reading the serial port or the log file, and the pattern
    match that extracts the three numbers of a line, are outside the
    model. *)





(** * Properties *)

(** ** The model at work *)

Example calculate_slot_width_1 : calculate_slot_width 1 = 2500.
Proof. reflexivity. Qed.

Example calculate_slot_width_16 : calculate_slot_width 16 = 3774.
Proof. reflexivity. Qed.

Example calculate_slot_width_saturates : calculate_slot_width 100000 = 65535.
Proof. reflexivity. Qed.

Example calculate_frame_time_3_nodes : calculate_frame_time [6; 6; 4] = 10700.
Proof. reflexivity. Qed.

Example random_partition_16_5 :
  fst <$> random_partition 16 5 demo_rng = Some [1; 3; 1; 6; 5].
Proof. vm_compute. reflexivity. Qed.

Example random_partition_too_many_parts : random_partition 16 17 demo_rng = None.
Proof. vm_compute. reflexivity. Qed.

Example run_pair_5_3 :
  fst <$> run_pair 5 3 demo_rng = Some (mkResult 5 3 1 10700 10700 0.999).
Proof. vm_compute. reflexivity. Qed.

(** ** Slot width *)

Section slot_width.

(** The airtime formula with the constants folded in: past the early
    return the slot is [1574 + 4 * ceil((398 + 800 n) / 24)], clamped. *)
Lemma calculate_slot_width_pos (n : Z) :
  1 <= n ->
  calculate_slot_width n
  = Z.min 65535 (Z.max 2500 (1574 + 4 * ((800 * n + 421) / 24))).
Proof.
  intros Hn. unfold calculate_slot_width.
  destruct (Z.leb_spec n 0) as [H0|_]; [lia|].
  cbv [TDMA_DATA_HEADER_SIZE TDMA_SAMPLES_PER_FRAME TDMA_SENSOR_DATA_SIZE
       OFDM_N_DBPS OFDM_PREAMBLE_US OFDM_SYMBOL_US OFDM_SIFS_US OFDM_ACK_US
       FIXED_OVERHEAD_US TDMA_SLOT_MIN_WIDTH_US].
  replace (326 + 8 * (8 + 4 * n * 25 + 1) + 24 - 1) with (800 * n + 421) by lia.
  set (q := (800 * n + 421) / 24).
  replace (1500 + (20 + 4 * q + 10 + 44)) with (1574 + 4 * q) by lia.
  destruct (Z.ltb_spec (1574 + 4 * q) 2500);
    match goal with |- context [?a >? ?b] => destruct (Z.gtb_spec a b) end; lia.
Qed.

Lemma calculate_slot_width_nonpos (n : Z) :
  n <= 0 -> calculate_slot_width n = 0.
Proof.
  intros Hn. unfold calculate_slot_width.
  destruct (Z.leb_spec n 0); [reflexivity|lia].
Qed.

Lemma calculate_slot_width_nonneg (n : Z) : 0 <= calculate_slot_width n.
Proof.
  destruct (Z_le_gt_dec n 0).
  - rewrite calculate_slot_width_nonpos; lia.
  - rewrite calculate_slot_width_pos; lia.
Qed.

Lemma calculate_slot_width_mono (n m : Z) :
  n <= m -> calculate_slot_width n <= calculate_slot_width m.
Proof.
  intros Hnm. destruct (Z_le_gt_dec n 0).
  - rewrite (calculate_slot_width_nonpos n) by lia.
    apply calculate_slot_width_nonneg.
  - rewrite !calculate_slot_width_pos by lia.
    assert ((800 * n + 421) / 24 <= (800 * m + 421) / 24)
      by (apply Z.div_le_mono; lia).
    lia.
Qed.

End slot_width.

(** ** Frame time *)

Section frame_time.

Lemma fold_left_add (xs : list Z) (a : Z) :
  fold_left Z.add xs a = a + sum_Z xs.
Proof.
  revert a. induction xs as [|x xs IH]; intros a; simpl; [lia|].
  rewrite IH. lia.
Qed.

Lemma py_sum_sum_Z (xs : list Z) : py_sum xs = sum_Z xs.
Proof. unfold py_sum. rewrite fold_left_add. lia. Qed.

Lemma sum_Z_app (xs ys : list Z) : sum_Z (xs ++ ys) = sum_Z xs + sum_Z ys.
Proof. induction xs as [|x xs IH]; simpl; lia. Qed.

Lemma slot_total_nonneg (l : list Z) : 0 <= slot_total l.
Proof.
  induction l as [|x l IH]; unfold slot_total in *; simpl; [lia|].
  pose proof (calculate_slot_width_nonneg x). lia.
Qed.

Lemma calculate_frame_time_cons (x : Z) (l : list Z) :
  calculate_frame_time (x :: l)
  = 3000 + slot_total (x :: l) + Z.of_nat (length l) * 100.
Proof.
  unfold calculate_frame_time, slot_total. rewrite py_sum_sum_Z.
  cbv [TDMA_BEACON_DURATION_US TDMA_FIRST_SLOT_GAP_US INTER_SLOT_GAP_US
       TDMA_GUARD_TIME_US].
  simpl length. lia.
Qed.

(** Raising one element raises the total slot time. *)
Lemma slot_total_insert (l : list Z) (i : nat) (old v : Z) :
  l !! i = Some old -> old <= v -> slot_total l <= slot_total (<[i:=v]> l).
Proof.
  revert i. induction l as [|x l IH]; intros [|i] Hi Hv; simplify_eq/=.
  - pose proof (calculate_slot_width_mono old v Hv).
    unfold slot_total. simpl. lia.
  - specialize (IH i Hi Hv). unfold slot_total in *. simpl. lia.
Qed.

End frame_time.

(** ** Sampling without replacement *)

Section sampling.
Implicit Types (pool result : list Z) (g : rng).

Lemma randbelow_lt (n : nat) g : (0 < n)%nat -> ((randbelow n g).1 < n)%nat.
Proof. intros Hn. simpl. apply Nat.mod_upper_bound. lia. Qed.

(** Overwriting position [j] and keeping what was there is a
    rearrangement of the list extended by the new value. *)
Lemma swap_out (l : list Z) (j : nat) (x y : Z) :
  l !! j = Some x -> x :: <[j:=y]> l ≡ₚ l ++ [y].
Proof.
  revert j. induction l as [|a l IH]; intros [|j] Hj; simplify_eq/=.
  - constructor. apply Permutation_cons_append.
  - rewrite perm_swap. constructor. by apply IH.
Qed.

(** One pass of the selection loop keeps the live part of the pool
    together with the results a rearrangement of what it was. *)
Lemma take_swap pool (j m : nat) :
  (j <= m)%nat -> (m < length pool)%nat ->
  pool !!! j :: take m (<[j:=pool !!! m]> pool) ≡ₚ take (S m) pool.
Proof.
  intros Hj Hm.
  destruct (lookup_lt_is_Some_2 pool m Hm) as [y Hy].
  rewrite (take_S_r pool m y Hy), (list_lookup_total_correct pool m y Hy).
  destruct (decide (j = m)) as [->|Hne].
  - rewrite take_insert_ge by lia.
    rewrite (list_lookup_total_correct pool m y Hy).
    apply Permutation_cons_append.
  - assert (j < m)%nat as Hlt by lia.
    rewrite take_insert_lt by lia.
    destruct (lookup_lt_is_Some_2 pool j ltac:(lia)) as [x Hx].
    rewrite (list_lookup_total_correct pool j x Hx).
    apply swap_out. by rewrite lookup_take_lt.
Qed.

Lemma sample_loop_spec (todo : nat) :
  forall (n i : nat) pool result g,
    length pool = n -> (i + todo <= n)%nat ->
    let r := (sample_loop n i todo pool result g).1 in
    length r = (length result + todo)%nat
    /\ exists rest, r ++ rest ≡ₚ result ++ take (n - i) pool.
Proof.
  induction todo as [|todo IH]; intros n i pool result g Hlen Hi; simpl.
  - split; [lia|]. by exists (take (n - i) pool).
  - set (j := (draws g (cursor g) mod (n - i))%nat).
    assert (j < n - i)%nat as Hj by (apply Nat.mod_upper_bound; lia).
    edestruct (IH n (S i) (<[j:=pool !!! (n - i - 1)%nat]> pool)
                 (result ++ [pool !!! j])
                 {| draws := draws g; cursor := S (cursor g) |})
      as [Hl [rest Hrest]]; [by rewrite length_insert | lia |].
    split; [rewrite Hl, length_app; simpl; lia|].
    exists rest. rewrite Hrest, <- app_assoc. apply Permutation_app_head.
    replace (n - i)%nat with (S (n - S i)) by lia.
    replace (S (n - S i) - 1)%nat with (n - S i)%nat by lia.
    simpl app. apply take_swap; lia.
Qed.

(** The contract of [random.sample]: it raises exactly when [k] is
    out of range, and otherwise returns [k] elements that, with some
    remainder, rearrange the population. *)
Lemma sample_Some (population : list Z) (k : Z) g :
  0 <= k <= Z.of_nat (length population) ->
  exists l g', sample population k g = Some (l, g')
    /\ length l = Z.to_nat k
    /\ exists rest, l ++ rest ≡ₚ population.
Proof.
  intros Hk. unfold sample. rewrite decide_True by done.
  destruct (sample_loop (length population) 0 (Z.to_nat k) population [] g)
    as [l g'] eqn:Heq.
  exists l, g'. split; [done|].
  pose proof (sample_loop_spec (Z.to_nat k) (length population) 0
                population [] g eq_refl ltac:(lia)) as [Hl [rest Hrest]].
  rewrite Heq in Hl, Hrest. simpl in Hl, Hrest.
  split; [lia|]. exists rest.
  by rewrite Hrest, Nat.sub_0_r, take_ge.
Qed.

Lemma sample_None (population : list Z) (k : Z) g :
  ~ (0 <= k <= Z.of_nat (length population)) -> sample population k g = None.
Proof. intros Hk. unfold sample. by rewrite decide_False. Qed.

End sampling.

(** ** Cut-point partition *)

Section partition.
Implicit Types (cuts counts : list Z) (g : rng).

Lemma fold_cut_step cuts : forall counts prev,
  fold_left cut_step cuts (counts, prev)
  = (counts ++ diffs prev cuts, last_cut prev cuts).
Proof.
  induction cuts as [|c cs IH]; intros counts prev; simpl.
  - by rewrite app_nil_r.
  - rewrite IH, <- app_assoc. reflexivity.
Qed.

Lemma length_diffs cuts prev : length (diffs prev cuts) = length cuts.
Proof. revert prev. induction cuts; intros; simpl; auto. Qed.

(** The differences telescope. *)
Lemma sum_Z_diffs cuts prev :
  sum_Z (diffs prev cuts) = last_cut prev cuts - prev.
Proof.
  revert prev. induction cuts as [|c cs IH]; intros prev; simpl; [lia|].
  rewrite IH. lia.
Qed.

Lemma last_cut_elem cuts prev : last_cut prev cuts ∈ prev :: cuts.
Proof.
  revert prev. induction cuts as [|c cs IH]; intros prev; simpl.
  - apply list_elem_of_here.
  - apply list_elem_of_further, IH.
Qed.

(** On a strictly increasing chain every difference is positive. *)
Lemma diffs_positive cuts prev :
  StronglySorted Z.lt (prev :: cuts) -> Forall (fun d => 1 <= d) (diffs prev cuts).
Proof.
  revert prev. induction cuts as [|c cs IH]; intros prev Hs; simpl.
  - constructor.
  - apply StronglySorted_inv in Hs as [Hs Hall].
    constructor; [|by apply IH].
    apply Forall_cons in Hall as [Hc _]. lia.
Qed.

Lemma sorted_NoDup_lt (l : list Z) :
  StronglySorted Z.le l -> NoDup l -> StronglySorted Z.lt l.
Proof.
  induction 1 as [|x l Hs IH Hall]; intros Hnd; [constructor|].
  apply NoDup_cons in Hnd as [Hx Hnd].
  constructor; [by apply IH|].
  rewrite Forall_forall in Hall |- *. intros y Hy.
  specialize (Hall y Hy). assert (x <> y) by (intros ->; done). lia.
Qed.

Lemma elem_le_sum_Z (l : list Z) :
  Forall (fun d => 0 <= d) l -> Forall (fun d => d <= sum_Z l) l.
Proof.
  induction 1 as [|x l Hx Hl IH]; simpl; constructor.
  - assert (0 <= sum_Z l); [|lia].
    clear IH. induction Hl; simpl; lia.
  - eapply Forall_impl; [exact IH|]. simpl. intros; lia.
Qed.

(** What the sorted cut list looks like, whatever was drawn. *)
Lemma sorted_cuts (total : Z) (drawn rest : list Z) :
  drawn ++ rest ≡ₚ py_range 1 total ->
  StronglySorted Z.lt (0 :: sorted drawn)
  /\ Forall (fun c => 1 <= c <= total - 1) (sorted drawn)
  /\ length (sorted drawn) = length drawn.
Proof.
  intros Hperm. unfold sorted.
  pose proof (merge_sort_Permutation Z.le drawn) as Hms.
  assert (Forall (fun c => 1 <= c <= total - 1) (merge_sort Z.le drawn)) as Hb.
  { rewrite Hms. apply (Forall_app _ drawn rest). rewrite Hperm.
    unfold py_range. apply Forall_seqZ. intros; lia. }
  split; [|split; [done | by rewrite Hms]].
  constructor.
  - apply sorted_NoDup_lt; [apply StronglySorted_merge_sort; apply _|].
    rewrite Hms. eapply (NoDup_app drawn rest). rewrite Hperm.
    apply NoDup_seqZ.
  - eapply Forall_impl; [exact Hb|]. simpl. intros; lia.
Qed.

(** [random_partition] unfolded: it raises exactly when the sampler
    does, and otherwise returns the differences of the sorted cuts
    followed by the remainder after the last cut. *)
Lemma random_partition_unfold (total parts : Z) g :
  random_partition total parts g
  = match sample (py_range 1 total) (parts - 1) g with
    | Some (drawn, g') =>
        Some (diffs 0 (sorted drawn) ++ [total - last_cut 0 (sorted drawn)], g')
    | None => None
    end.
Proof.
  unfold random_partition.
  destruct (sample _ _ g) as [[drawn g']|]; simpl; [|reflexivity].
  by rewrite fold_cut_step.
Qed.

Lemma length_py_range (lo hi : Z) : length (py_range lo hi) = Z.to_nat (hi - lo).
Proof. apply length_seqZ. Qed.

Lemma random_partition_ok (total parts : Z) g :
  1 <= total -> 1 <= parts <= total ->
  exists counts g',
    random_partition total parts g = Some (counts, g')
    /\ length counts = Z.to_nat parts
    /\ sum_Z counts = total
    /\ Forall (fun c => 1 <= c <= total) counts.
Proof.
  intros Ht Hp. rewrite random_partition_unfold.
  destruct (sample_Some (py_range 1 total) (parts - 1) g)
    as (drawn & g' & -> & Hlen & rest & Hperm);
    [rewrite length_py_range; lia|].
  destruct (sorted_cuts total drawn rest Hperm) as (Hs & Hb & Hl).
  set (cuts := sorted drawn) in *.
  eexists _, g'. split; [reflexivity|].
  assert (sum_Z (diffs 0 cuts ++ [total - last_cut 0 cuts]) = total) as Hsum.
  { rewrite sum_Z_app, sum_Z_diffs. simpl. lia. }
  assert (Forall (fun c => 1 <= c) (diffs 0 cuts ++ [total - last_cut 0 cuts]))
    as Hpos.
  { apply Forall_app. split; [by apply diffs_positive|].
    constructor; [|constructor].
    pose proof (last_cut_elem cuts 0) as Hin.
    apply elem_of_cons in Hin as [->|Hin]; [lia|].
    rewrite Forall_forall in Hb. specialize (Hb _ Hin). lia. }
  split; [|split; [done|]].
  - rewrite length_app, length_diffs, Hl, Hlen. simpl. lia.
  - assert (Forall (fun d => d <= total)
              (diffs 0 cuts ++ [total - last_cut 0 cuts])) as Hle.
    { pose proof (elem_le_sum_Z _ (Forall_impl _ _ _ Hpos
                    (fun d (H : 1 <= d) => ltac:(lia) : 0 <= d))) as Hle.
      by rewrite Hsum in Hle. }
    rewrite Forall_forall in Hpos, Hle |- *. intros c Hc.
    split; [by apply Hpos | by apply Hle].
Qed.

Lemma random_partition_raises (total parts : Z) g :
  1 <= total -> parts < 1 \/ total < parts ->
  random_partition total parts g = None.
Proof.
  intros Ht Hp. rewrite random_partition_unfold, sample_None; [done|].
  rewrite length_py_range. lia.
Qed.

(** The cut list when every possible cut is taken. *)
Lemma Sorted_seqZ (n : nat) : forall m, Sorted Z.le (seqZ m (Z.of_nat n)).
Proof.
  induction n as [|n IH]; intros m.
  - rewrite seqZ_nil by lia. constructor.
  - rewrite seqZ_cons by lia.
    replace (Z.pred (Z.of_nat (S n))) with (Z.of_nat n) by lia.
    constructor; [apply IH|].
    destruct n as [|n]; [rewrite seqZ_nil by lia; constructor|].
    rewrite seqZ_cons by lia. constructor. lia.
Qed.

Lemma diffs_seqZ (n : nat) : forall m,
  diffs m (seqZ (Z.succ m) (Z.of_nat n)) = replicate n 1
  /\ last_cut m (seqZ (Z.succ m) (Z.of_nat n)) = m + Z.of_nat n.
Proof.
  induction n as [|n IH]; intros m.
  - rewrite seqZ_nil by lia. simpl. split; [done|lia].
  - rewrite seqZ_cons by lia.
    replace (Z.pred (Z.of_nat (S n))) with (Z.of_nat n) by lia.
    destruct (IH (Z.succ m)) as [Hd Hl]. simpl. rewrite Hd, Hl.
    split; [f_equal|]; lia.
Qed.

Lemma sorted_all_cuts (total : Z) (drawn rest : list Z) :
  1 <= total ->
  length drawn = Z.to_nat (total - 1) ->
  drawn ++ rest ≡ₚ py_range 1 total ->
  sorted drawn = seqZ 1 (Z.of_nat (Z.to_nat (total - 1))).
Proof.
  intros Ht Hlen Hperm.
  assert (rest = []) as ->.
  { apply nil_length_inv. apply Permutation_length in Hperm.
    rewrite length_app, length_py_range in Hperm. lia. }
  rewrite app_nil_r in Hperm. unfold py_range, sorted in *.
  replace (total - 1) with (Z.of_nat (Z.to_nat (total - 1))) in Hperm by lia.
  apply (Sorted_unique Z.le).
  - apply Sorted_merge_sort; apply _.
  - apply Sorted_seqZ.
  - by rewrite merge_sort_Permutation.
Qed.

Lemma random_partition_all_ones (total : Z) g :
  1 <= total ->
  exists g', random_partition total total g
             = Some (replicate (Z.to_nat total) 1, g').
Proof.
  intros Ht. rewrite random_partition_unfold.
  destruct (sample_Some (py_range 1 total) (total - 1) g)
    as (drawn & g' & -> & Hlen & rest & Hperm);
    [rewrite length_py_range; lia|].
  exists g'. rewrite (sorted_all_cuts total drawn rest Ht Hlen Hperm).
  destruct (diffs_seqZ (Z.to_nat (total - 1)) 0) as [Hd Hl].
  change (Z.succ 0) with 1 in Hd, Hl. rewrite Hd, Hl.
  replace (total - (0 + Z.of_nat (Z.to_nat (total - 1)))) with 1 by lia.
  rewrite <- replicate_S_end. do 3 f_equal. lia.
Qed.

End partition.

(** ** The simulation loop *)

Section simulation.
Implicit Types (g : rng) (a : Acc).

Lemma trials_ok (total nodes : Z) (n : nat) :
  1 <= total -> 1 <= nodes <= total ->
  forall a g, exists a' g', trials n total nodes a g = Some (a', g').
Proof.
  intros Ht Hn. induction n as [|n IH]; intros a g; simpl; [eauto|].
  unfold trial.
  destruct (random_partition_ok total nodes g Ht Hn)
    as (counts & g1 & -> & _). simpl. apply IH.
Qed.

Lemma run_pair_ok (total nodes : Z) g :
  1 <= total -> 1 <= nodes <= total ->
  exists r g', run_pair total nodes g = Some (r, g')
               /\ pair_of r = (total, nodes).
Proof.
  intros Ht Hn. unfold run_pair.
  destruct (trials_ok total nodes (Z.to_nat RANDOM_DISTRIBUTIONS) Ht Hn
              (mkAcc 0 0 0) g) as (a & g' & ->).
  simpl. eauto.
Qed.

Lemma run_pair_fields (total nodes : Z) g (r : Result) g' :
  run_pair total nodes g = Some (r, g') ->
  total_sensors r = total /\ node_count r = nodes.
Proof.
  unfold run_pair.
  destruct (trials _ total nodes _ g) as [[a g1]|];
    cbn [mbind option_bind]; [|done].
  intros [= <- _]. split; reflexivity.
Qed.

(** A loop whose every pass appends to what the state reports,
    reports at its end what all the passes appended, in order. *)
Lemma for_each_collect {A S K : Type}
    (body : A -> S -> option S) (log : S -> list K) (key : A -> list K)
    (P : A -> Prop) :
  (forall x s, P x -> exists s', body x s = Some s' /\ log s' = log s ++ key x) ->
  forall xs, Forall P xs ->
  forall s, exists s', for_each xs body s = Some s'
                       /\ log s' = log s ++ (xs ≫= key).
Proof.
  intros Hbody xs Hxs. induction Hxs as [|x xs Hx _ IH]; intros s; simpl.
  - exists s. by rewrite app_nil_r.
  - destruct (Hbody x s Hx) as (s1 & -> & Hs1). simpl.
    destruct (IH s1) as (s2 & -> & Hs2).
    exists s2. split; [done|]. by rewrite Hs2, Hs1, <- app_assoc.
Qed.

Lemma node_step_ok (total nodes : Z) (st : list Result * rng) :
  1 <= total /\ 1 <= nodes <= total ->
  exists st', node_step total nodes st = Some st'
              /\ rows st' = rows st ++ [(total, nodes)].
Proof.
  intros [Ht Hn]. destruct st as [results g]. unfold node_step.
  destruct (run_pair_ok total nodes g Ht Hn) as (r & g' & -> & Hr).
  simpl. eexists. split; [done|].
  unfold rows. simpl. by rewrite fmap_app, <- Hr.
Qed.

Lemma nodes_loop_ok (total : Z) (st : list Result * rng) :
  1 <= total ->
  exists st', nodes_loop total st = Some st'
    /\ rows st' = rows st
         ++ (nodes ← py_range 1 (Z.min MAX_NODES total + 1); [(total, nodes)]).
Proof.
  intros Ht. unfold nodes_loop.
  apply (for_each_collect (node_step total) rows
           (fun nodes => [(total, nodes)])
           (fun nodes => 1 <= total /\ 1 <= nodes <= total)).
  - intros nodes s. apply node_step_ok.
  - apply Forall_seqZ. intros; lia.
Qed.

Lemma run_ok g :
  exists results g', run g = Some (results, g')
                     /\ pair_of <$> results = run_pairs.
Proof.
  unfold run.
  destruct (for_each_collect nodes_loop rows
              (fun total => nodes ← py_range 1 (Z.min MAX_NODES total + 1);
                            [(total, nodes)])
              (fun total => 1 <= total)
              (fun total s => nodes_loop_ok total s)
              (py_range 1 (MAX_TOTAL_SENSORS + 1))
              ltac:(apply Forall_seqZ; intros; lia)
              ([], g)) as ([results g'] & Hrun & Hrows).
  exists results, g'. split; [done|]. exact Hrows.
Qed.

Lemma run_pairs_bounds (total nodes : Z) :
  (total, nodes) ∈ run_pairs ->
  1 <= total <= MAX_TOTAL_SENSORS /\ 1 <= nodes <= Z.min MAX_NODES total.
Proof.
  unfold run_pairs. intros Hin.
  apply list_elem_of_bind in Hin as (t & Hin & Ht).
  apply list_elem_of_bind in Hin as (n & Hin & Hn).
  apply list_elem_of_singleton in Hin. simplify_eq.
  apply elem_of_seqZ in Ht, Hn. lia.
Qed.

(** With a single node the partition is forced and the generator is
    not consulted. *)
Lemma random_partition_single (total : Z) g :
  1 <= total -> random_partition total 1 g = Some ([total], g).
Proof.
  intros Ht. unfold random_partition, sample.
  rewrite decide_True by (simpl; lia).
  change (Z.to_nat (1 - 1)) with 0%nat. simpl.
  by rewrite Z.sub_0_r.
Qed.

(** Whatever the generator does, the 16-sensor single-node pair
    reports the same row: every one of the 1000 trials sees the
    partition [[16]]. *)
Lemma run_pair_16_1 g :
  run_pair 16 1 g = Some (mkResult 16 1 1 6774 6774 0.999, g).
Proof. vm_compute. reflexivity. Qed.

(** A property of the state that every pass preserves holds when the
    loop ends. *)
Lemma for_each_invariant {A S : Type} (body : A -> S -> option S)
    (I : S -> Prop) :
  (forall x s s', I s -> body x s = Some s' -> I s') ->
  forall xs s s', I s -> for_each xs body s = Some s' -> I s'.
Proof.
  intros Hbody xs. induction xs as [|x xs IH]; intros s s' Hs; simpl.
  - by intros [= <-].
  - destruct (body x s) as [s1|] eqn:Hx; simpl; [|done].
    apply IH. by eapply Hbody.
Qed.

(** Every row [run] reports is what [run_pair] returned for the
    row's own pair, in some state of the generator. *)
Lemma run_rows g (results : list Result) g' :
  run g = Some (results, g') -> Forall from_run_pair results.
Proof.
  unfold run. intros Hrun.
  apply (for_each_invariant nodes_loop
           (fun st => Forall from_run_pair st.1)) in Hrun; [done| |by constructor].
  intros total st st'. unfold nodes_loop.
  apply (for_each_invariant (node_step total)
           (fun st => Forall from_run_pair st.1)).
  intros nodes [rs g1] [rs' g2] Hrs. unfold node_step.
  destruct (run_pair total nodes g1) as [[r g3]|] eqn:Hr;
    cbn [mbind option_bind]; [|done].
  intros [= <- <-]. cbn [fst] in *. apply Forall_app. split; [done|].
  constructor; [|constructor]. exists g1, g3.
  destruct (run_pair_fields total nodes g1 r g3 Hr) as [-> ->]. done.
Qed.

End simulation.

(** C8: a node with zero sensors gets a slot of exactly 0 microseconds. *)
Theorem calculate_slot_width_zero : calculate_slot_width 0 = 0.
Proof. reflexivity. Qed.

(** C9: the zero-sensor branch covers every non-positive input, so a
    negative sensor count also yields 0. *)
Theorem calculate_slot_width_negative (sensor_count : Z) :
  sensor_count < 0 -> calculate_slot_width sensor_count = 0.
Proof. intros H. apply calculate_slot_width_nonpos. lia. Qed.

Lemma calculate_slot_width_negative_witness :
  -3 < 0 /\ calculate_slot_width (-3) = 0.
Proof.
  split; [lia | apply (calculate_slot_width_negative (-3)); lia].
Defined.

(** C2 as stated fails: at [sensor_count = 0] the result is 0, below
    the minimum slot width of 2500. *)
Lemma calculate_slot_width_floor_fails :
  ~ (TDMA_SLOT_MIN_WIDTH_US <= calculate_slot_width 0 <= 65535).
Proof. vm_compute. intros [H _]. apply H. reflexivity. Qed.

(** C2, amended: the result never exceeds 65535 for any integer; it is
    at least [TDMA_SLOT_MIN_WIDTH_US] exactly for the positive sensor
    counts, and 0 for the others. *)
Theorem calculate_slot_width_bounds (sensor_count : Z) :
  calculate_slot_width sensor_count <= 65535
  /\ (1 <= sensor_count ->
      TDMA_SLOT_MIN_WIDTH_US <= calculate_slot_width sensor_count)
  /\ (sensor_count <= 0 -> calculate_slot_width sensor_count = 0).
Proof.
  unfold TDMA_SLOT_MIN_WIDTH_US. repeat split.
  - destruct (Z_le_gt_dec sensor_count 0).
    + rewrite calculate_slot_width_nonpos; lia.
    + rewrite calculate_slot_width_pos; lia.
  - intros H. rewrite calculate_slot_width_pos; lia.
  - apply calculate_slot_width_nonpos.
Qed.

Lemma calculate_slot_width_bounds_witness :
  (TDMA_SLOT_MIN_WIDTH_US <= calculate_slot_width 600 <= 65535)
  /\ calculate_slot_width (-1) = 0.
Proof.
  split; [split|].
  - apply (calculate_slot_width_bounds 600). lia.
  - apply (calculate_slot_width_bounds 600).
  - apply (calculate_slot_width_bounds (-1)). lia.
Defined.

(** C4: an empty assignment costs the beacon alone (500); a non-empty
    one costs beacon, first-slot gap, the slot widths of all its
    elements, one inter-slot gap between consecutive slots, and the
    guard time.  Non-emptiness is the shape [x :: l]; the elements need
    not even be non-negative. *)
Theorem calculate_frame_time_formula :
  calculate_frame_time [] = TDMA_BEACON_DURATION_US
  /\ TDMA_BEACON_DURATION_US = 500
  /\ forall (x : Z) (l : list Z),
      let sensor_counts := x :: l in
      calculate_frame_time sensor_counts
      = TDMA_BEACON_DURATION_US + TDMA_FIRST_SLOT_GAP_US
        + sum_Z (map calculate_slot_width sensor_counts)
        + (Z.of_nat (length sensor_counts) - 1) * INTER_SLOT_GAP_US
        + TDMA_GUARD_TIME_US.
Proof.
  split; [reflexivity|]. split; [reflexivity|].
  intros x l sensor_counts. unfold sensor_counts, calculate_frame_time.
  rewrite py_sum_sum_Z. reflexivity.
Qed.

(** C5: the frame time never decreases when one element of the
    assignment is raised, nor when a node is appended (whatever the
    counts are, non-negative or not). *)
Theorem calculate_frame_time_monotone :
  (forall (l : list Z) (i : nat) (old v : Z),
      l !! i = Some old -> old <= v ->
      calculate_frame_time l <= calculate_frame_time (<[i:=v]> l))
  /\ (forall (l : list Z) (x : Z),
        calculate_frame_time l <= calculate_frame_time (l ++ [x])).
Proof.
  split.
  - intros l i old v Hi Hv.
    pose proof (slot_total_insert l i old v Hi Hv) as Hs.
    destruct l as [|y l]; [done|].
    assert (exists z l', <[i:=v]> (y :: l) = z :: l' /\ length l' = length l)
      as (z & l' & Heq & Hlen).
    { destruct i as [|i]; simpl; eexists _, _; split; try reflexivity.
      apply length_insert. }
    rewrite Heq in *. rewrite !calculate_frame_time_cons, Hlen. lia.
  - intros [|y l] x.
    + rewrite app_nil_l, calculate_frame_time_cons.
      pose proof (slot_total_nonneg [x]).
      change (calculate_frame_time []) with 500. simpl length. lia.
    + rewrite <- app_comm_cons, !calculate_frame_time_cons.
      unfold slot_total. rewrite length_app. simpl length.
      change (y :: l ++ [x]) with ((y :: l) ++ [x]).
      rewrite map_app, sum_Z_app.
      pose proof (slot_total_nonneg [x]) as Hx. unfold slot_total in Hx.
      lia.
Qed.

Lemma calculate_frame_time_monotone_witness :
  calculate_frame_time [3; 600; 2] <= calculate_frame_time (<[1%nat:=700]> [3; 600; 2])
  /\ calculate_frame_time [3; 600; 2] <= calculate_frame_time ([3; 600; 2] ++ [0]).
Proof.
  split.
  - apply (proj1 calculate_frame_time_monotone [3; 600; 2] 1%nat 600 700);
      [reflexivity | lia].
  - apply (proj2 calculate_frame_time_monotone [3; 600; 2] 0).
Defined.

(** C3: for [total >= 1] and [1 <= parts <= total], whatever the state
    of the generator, [random_partition] returns, and the list it
    returns has [parts] elements that sum to [total] and each lie in
    [[1, total]]: the cut-point method produces no zero-sensor node. *)
Theorem random_partition_valid (total parts : Z) (g : rng) :
  1 <= total -> 1 <= parts <= total ->
  exists counts g',
    random_partition total parts g = Some (counts, g')
    /\ length counts = Z.to_nat parts
    /\ sum_Z counts = total
    /\ Forall (fun c => 1 <= c <= total) counts.
Proof. apply random_partition_ok. Qed.

Lemma random_partition_valid_witness :
  exists counts g',
    random_partition 16 5 demo_rng = Some (counts, g')
    /\ length counts = Z.to_nat 5
    /\ sum_Z counts = 16
    /\ Forall (fun c => 1 <= c <= 16) counts.
Proof. apply (random_partition_valid 16 5 demo_rng); lia. Defined.

(** C10: asking for as many parts as there are sensors leaves the
    sampler no choice: in every state of the generator the result is
    the all-ones list of length [total]. *)
Theorem random_partition_total_total (total : Z) (g : rng) :
  1 <= total ->
  exists g', random_partition total total g
             = Some (replicate (Z.to_nat total) 1, g').
Proof. apply random_partition_all_ones. Qed.

Lemma random_partition_total_total_witness :
  exists g', random_partition 7 7 demo_rng = Some (replicate (Z.to_nat 7) 1, g').
Proof. apply (random_partition_total_total 7 demo_rng). lia. Defined.

(** C7: whatever the generator does, [run] completes without raising,
    it reports one row per pair of its iteration space, in order, and
    every such pair has [1 <= node_count <= min(MAX_NODES, total)], so
    [node_count] never exceeds [total_sensors].  Each row is what
    [run_pair] returned for the row's own pair, and [run_pair] is the
    only caller of [random_partition], with that pair as arguments. *)
Theorem run_respects_partition_guard (g : rng) :
  (exists results g',
      run g = Some (results, g')
      /\ pair_of <$> results = run_pairs
      /\ Forall (fun r => exists g1 g2,
                   run_pair (total_sensors r) (node_count r) g1 = Some (r, g2))
                results)
  /\ Forall (fun '(total, nodes) =>
               1 <= nodes <= Z.min MAX_NODES total /\ nodes <= total)
            run_pairs.
Proof.
  split.
  - destruct (run_ok g) as (results & g' & Hrun & Hrows).
    exists results, g'. split; [done|]. split; [done|].
    exact (run_rows g results g' Hrun).
  - apply Forall_forall. intros [total nodes] Hin.
    apply run_pairs_bounds in Hin. lia.
Qed.

(** C1 as stated fails: the frame for a single node with 16 sensors
    takes 6774 microseconds, within the 20000 budget, and the pair's
    schedule-ok rate is not below 1.0. *)
Lemma single_node_16_not_infeasible :
  ~ (calculate_frame_time [16] > TDMA_FRAME_PERIOD_US
     \/ exists r g', run_pair 16 1 demo_rng = Some (r, g')
                     /\ (schedule_ok_rate r <? 1)%float = true).
Proof.
  intros [H | (r & g' & Hr & Hlt)].
  - vm_compute in H. discriminate.
  - rewrite run_pair_16_1 in Hr. simplify_eq/=.
Qed.

(** C1, amended: with the reference constants the single-node
    16-sensor case is feasible.  [calculate_frame_time [16]] is 6774,
    within the frame period, and in every state of the generator the
    row [run] reports for the pair (16, 1) has schedule-ok rate exactly
    1.0, maximum frame 6774 and estimated success 0.999. *)
Theorem single_node_16_feasible (g : rng) :
  calculate_frame_time [16] = 6774
  /\ calculate_frame_time [16] <= TDMA_FRAME_PERIOD_US
  /\ run_pair 16 1 g = Some (mkResult 16 1 1 6774 6774 0.999, g)
  /\ exists results g' r,
       run g = Some (results, g')
       /\ r ∈ results
       /\ r = mkResult 16 1 1 6774 6774 0.999
       /\ (schedule_ok_rate r <? 1)%float = false.
Proof.
  split; [reflexivity|]. split; [vm_compute; discriminate|].
  split; [apply run_pair_16_1|].
  assert ((16, 1) ∈ run_pairs) as Hin.
  { unfold run_pairs. apply list_elem_of_bind. exists 16.
    split; [|apply elem_of_seqZ; unfold MAX_TOTAL_SENSORS; lia].
    apply list_elem_of_bind. exists 1.
    split; [by apply list_elem_of_singleton|].
    apply elem_of_seqZ. unfold MAX_NODES. lia. }
  destruct (run_ok g) as (results & g' & Hrun & Hrows).
  rewrite <- Hrows in Hin.
  apply list_elem_of_fmap in Hin as (r & Hpair & Hr).
  pose proof (run_rows g results g' Hrun) as Hall.
  rewrite Forall_forall in Hall. destruct (Hall r Hr) as (g1 & g2 & Hrun1).
  clear Hall. unfold pair_of in Hpair.
  apply (f_equal fst) in Hpair as Ht. apply (f_equal snd) in Hpair as Hn.
  cbn [fst snd] in Ht, Hn. rewrite <- Ht, <- Hn, run_pair_16_1 in Hrun1.
  assert (r = mkResult 16 1 1 6774 6774 0.999) as Heq by congruence.
  exists results, g', r. split; [exact Hrun|]. split; [exact Hr|].
  split; [exact Heq|]. rewrite Heq. reflexivity.
Qed.

(** The product of three factors 0.1 is the binary64 number nearest to
    the exact cube of the binary64 number 0.1. *)
Lemma float_pow_drop_prob_nearest :
  exists p, float_to_Q PACKET_LOSS_PROB = Some p
    /\ rounds_to (p * p * p) (float_pow PACKET_LOSS_PROB (FREEWHEEL_FRAMES + 1)).
Proof. eexists. split; [reflexivity|]. vm_compute. discriminate. Qed.

(** C6: with the loss probability 0.10 and two freewheel frames,
    [estimated_success_rate 1.0] is the binary64 number written 0.999,
    which is the one nearest to the exact [1 - (1/10)^3 = 999/1000];
    in general the result is [schedule_ok] times [1 - p^(F+1)], which
    is [schedule_ok] times 0.999. *)
Theorem estimated_success_rate_value :
  estimated_success_rate 1 = 0.999%float
  /\ rounds_to (1 - (1 # 10) * (1 # 10) * (1 # 10)) (estimated_success_rate 1)
  /\ forall schedule_ok : float,
      estimated_success_rate schedule_ok
      = (schedule_ok
         * (1 - float_pow PACKET_LOSS_PROB (FREEWHEEL_FRAMES + 1)))%float
      /\ estimated_success_rate schedule_ok = (schedule_ok * 0.999)%float.
Proof.
  split; [reflexivity|]. split; [vm_compute; discriminate|].
  intros schedule_ok. split; reflexivity.
Qed.

(** * Further properties of the timing model *)

Section slot_width_shape.

Lemma calculate_slot_width_7 : calculate_slot_width 7 = 2574.
Proof. reflexivity. Qed.

Lemma calculate_slot_width_479 : calculate_slot_width 479 = 65510.
Proof. reflexivity. Qed.

(** Between the two clamps the result is the formula itself. *)
Lemma calculate_slot_width_unclamped (n : Z) :
  7 <= n <= 479 ->
  calculate_slot_width n = 1574 + 4 * ((800 * n + 421) / 24)
  /\ 2574 <= calculate_slot_width n <= 65510.
Proof.
  intros Hn.
  pose proof (calculate_slot_width_mono 7 n ltac:(lia)) as Hlo.
  pose proof (calculate_slot_width_mono n 479 ltac:(lia)) as Hhi.
  rewrite calculate_slot_width_7 in Hlo.
  rewrite calculate_slot_width_479 in Hhi.
  split; [|lia].
  rewrite calculate_slot_width_pos in Hlo, Hhi |- * by lia. lia.
Qed.

End slot_width_shape.

(** X1: the slot width never decreases when the sensor count grows,
    over all integers (the early return, the formula and both clamps
    included). *)
Theorem calculate_slot_width_monotone (n m : Z) :
  n <= m -> calculate_slot_width n <= calculate_slot_width m.
Proof. apply calculate_slot_width_mono. Qed.

Lemma calculate_slot_width_monotone_witness :
  calculate_slot_width 6 <= calculate_slot_width 7.
Proof. apply (calculate_slot_width_monotone 6 7). lia. Defined.

(** X2: where the two clamps apply.  The result is the minimum slot
    width exactly for 1 to 6 sensors, and it is the saturated 65535
    exactly from 480 sensors on. *)
Theorem calculate_slot_width_clamp_ranges (n : Z) :
  (calculate_slot_width n = TDMA_SLOT_MIN_WIDTH_US <-> 1 <= n <= 6)
  /\ (calculate_slot_width n = 65535 <-> 480 <= n).
Proof.
  unfold TDMA_SLOT_MIN_WIDTH_US. split; split.
  - intros H. destruct (Z_le_gt_dec n 0) as [H0|H0].
    { rewrite calculate_slot_width_nonpos in H by lia. lia. }
    destruct (Z_le_gt_dec n 6); [lia|].
    pose proof (calculate_slot_width_mono 7 n ltac:(lia)) as Hlo.
    rewrite calculate_slot_width_7 in Hlo. lia.
  - intros Hn.
    pose proof (calculate_slot_width_mono 1 n ltac:(lia)) as Hlo.
    pose proof (calculate_slot_width_mono n 6 ltac:(lia)) as Hhi.
    change (calculate_slot_width 1) with 2500 in Hlo.
    change (calculate_slot_width 6) with 2500 in Hhi. lia.
  - intros H. destruct (Z_le_gt_dec 480 n); [lia|].
    pose proof (calculate_slot_width_mono n 479 ltac:(lia)) as Hhi.
    rewrite calculate_slot_width_479 in Hhi. lia.
  - intros Hn.
    pose proof (calculate_slot_width_mono 480 n ltac:(lia)) as Hlo.
    change (calculate_slot_width 480) with 65535 in Hlo.
    rewrite calculate_slot_width_pos in Hlo |- * by lia. lia.
Qed.

(** X3: between the clamps the slot is the fixed overhead plus the
    airtime of a whole number of OFDM symbols, and that number is the
    ceiling of the frame's bits over the bits per symbol: a partial
    symbol is never rounded away. *)
Theorem calculate_slot_width_ceiling (n : Z) :
  7 <= n <= 479 ->
  exists syms,
    calculate_slot_width n
    = FIXED_OVERHEAD_US + OFDM_PREAMBLE_US + OFDM_SYMBOL_US * syms
      + OFDM_SIFS_US + OFDM_ACK_US
    /\ let payload_bytes :=
         TDMA_DATA_HEADER_SIZE
         + TDMA_SAMPLES_PER_FRAME * n * TDMA_SENSOR_DATA_SIZE + 1 in
       let ofdm_bits := 22 + 8 * (FRAME_OVERHEAD_BYTES + payload_bytes) in
       OFDM_N_DBPS * (syms - 1) < ofdm_bits <= OFDM_N_DBPS * syms.
Proof.
  intros Hn. destruct (calculate_slot_width_unclamped n Hn) as [-> _].
  exists ((800 * n + 421) / 24).
  cbv [FIXED_OVERHEAD_US OFDM_PREAMBLE_US OFDM_SYMBOL_US OFDM_SIFS_US
       OFDM_ACK_US TDMA_DATA_HEADER_SIZE TDMA_SAMPLES_PER_FRAME
       TDMA_SENSOR_DATA_SIZE FRAME_OVERHEAD_BYTES OFDM_N_DBPS].
  split; [lia|]. cbv zeta.
  pose proof (Z.div_mod (800 * n + 421) 24 ltac:(lia)).
  pose proof (Z.mod_pos_bound (800 * n + 421) 24 ltac:(lia)). lia.
Qed.

Lemma calculate_slot_width_ceiling_witness :
  exists syms,
    calculate_slot_width 16
    = FIXED_OVERHEAD_US + OFDM_PREAMBLE_US + OFDM_SYMBOL_US * syms
      + OFDM_SIFS_US + OFDM_ACK_US
    /\ let payload_bytes :=
         TDMA_DATA_HEADER_SIZE
         + TDMA_SAMPLES_PER_FRAME * 16 * TDMA_SENSOR_DATA_SIZE + 1 in
       let ofdm_bits := 22 + 8 * (FRAME_OVERHEAD_BYTES + payload_bytes) in
       OFDM_N_DBPS * (syms - 1) < ofdm_bits <= OFDM_N_DBPS * syms.
Proof. apply (calculate_slot_width_ceiling 16). lia. Defined.

(** X4: between the clamps one more sensor costs 132 or 136
    microseconds of slot time (33 or 34 more symbols). *)
Theorem calculate_slot_width_step (n : Z) :
  7 <= n <= 478 ->
  calculate_slot_width (n + 1) = calculate_slot_width n + 132
  \/ calculate_slot_width (n + 1) = calculate_slot_width n + 136.
Proof.
  intros Hn.
  destruct (calculate_slot_width_unclamped n ltac:(lia)) as [-> _].
  destruct (calculate_slot_width_unclamped (n + 1) ltac:(lia)) as [-> _].
  pose proof (Z.div_mod (800 * n + 421) 24 ltac:(lia)).
  pose proof (Z.mod_pos_bound (800 * n + 421) 24 ltac:(lia)).
  pose proof (Z.div_mod (800 * (n + 1) + 421) 24 ltac:(lia)).
  pose proof (Z.mod_pos_bound (800 * (n + 1) + 421) 24 ltac:(lia)).
  lia.
Qed.

Lemma calculate_slot_width_step_witness :
  calculate_slot_width (7 + 1) = calculate_slot_width 7 + 132
  \/ calculate_slot_width (7 + 1) = calculate_slot_width 7 + 136.
Proof. apply (calculate_slot_width_step 7). lia. Defined.

(** ** The frame budget *)

Section frame_budget.

Lemma sum_Z_perm (l l' : list Z) : l ≡ₚ l' -> sum_Z l = sum_Z l'.
Proof. induction 1; simpl; lia. Qed.

Lemma slot_total_perm (l l' : list Z) : l ≡ₚ l' -> slot_total l = slot_total l'.
Proof. intros H. unfold slot_total. apply sum_Z_perm, Permutation_map, H. Qed.

Lemma slot_total_cons (x : Z) (l : list Z) :
  slot_total (x :: l) = calculate_slot_width x + slot_total l.
Proof. reflexivity. Qed.

Lemma slot_total_app (l l' : list Z) :
  slot_total (l ++ l') = slot_total l + slot_total l'.
Proof. unfold slot_total. by rewrite map_app, sum_Z_app. Qed.

(** A slot for [c >= 0] sensors costs at most 2366 + 134 c. *)
Lemma calculate_slot_width_linear (c : Z) :
  0 <= c -> calculate_slot_width c <= 2366 + 134 * c.
Proof.
  intros Hc. destruct (Z_le_gt_dec c 0).
  - rewrite calculate_slot_width_nonpos by lia. lia.
  - rewrite calculate_slot_width_pos by lia.
    pose proof (Z.div_mod (800 * c + 421) 24 ltac:(lia)).
    pose proof (Z.mod_pos_bound (800 * c + 421) 24 ltac:(lia)). lia.
Qed.

Lemma calculate_slot_width_small (c : Z) :
  1 <= c <= 6 -> calculate_slot_width c = 2500.
Proof.
  intros Hc.
  pose proof (calculate_slot_width_mono 1 c ltac:(lia)) as Hlo.
  pose proof (calculate_slot_width_mono c 6 ltac:(lia)) as Hhi.
  change (calculate_slot_width 1) with 2500 in Hlo.
  change (calculate_slot_width 6) with 2500 in Hhi. lia.
Qed.

Lemma slot_total_active (l : list Z) :
  Forall (fun c => 1 <= c) l -> 2500 * Z.of_nat (length l) <= slot_total l.
Proof.
  induction 1 as [|c l Hc _ IH]; [done|].
  rewrite slot_total_cons. simpl length.
  pose proof (calculate_slot_width_mono 1 c Hc) as H1.
  change (calculate_slot_width 1) with 2500 in H1. lia.
Qed.

Lemma slot_total_small (l : list Z) :
  Forall (fun c => 1 <= c <= 6) l -> slot_total l = 2500 * Z.of_nat (length l).
Proof.
  induction 1 as [|c l Hc _ IH]; [done|].
  rewrite slot_total_cons, IH, (calculate_slot_width_small c Hc).
  simpl length. lia.
Qed.

Lemma slot_total_linear (l : list Z) :
  Forall (fun c => 0 <= c) l ->
  slot_total l <= 2366 * Z.of_nat (length l) + 134 * sum_Z l.
Proof.
  induction 1 as [|c l Hc _ IH]; [done|].
  rewrite slot_total_cons. simpl length. simpl sum_Z.
  pose proof (calculate_slot_width_linear c Hc). lia.
Qed.

(** Seven or more active nodes never fit the frame period. *)
Lemma frame_overrun (l : list Z) :
  Forall (fun c => 1 <= c) l -> (7 <= length l)%nat ->
  20000 < calculate_frame_time l.
Proof.
  intros Hl Hlen. pose proof (slot_total_active l Hl) as Hs.
  destruct l as [|x l]; [simpl in Hlen; lia|].
  rewrite calculate_frame_time_cons. simpl length in *. lia.
Qed.

(** Up to six nodes that share at most 16 sensors always fit. *)
Lemma frame_fits (l : list Z) :
  Forall (fun c => 0 <= c) l -> (length l <= 6)%nat -> sum_Z l <= 16 ->
  calculate_frame_time l <= 20000.
Proof.
  intros Hl Hlen Hsum. pose proof (slot_total_linear l Hl) as Hs.
  destruct l as [|x l]; [vm_compute; discriminate|].
  rewrite calculate_frame_time_cons. simpl length in *. lia.
Qed.

End frame_budget.

(** X5: the frame time does not depend on the order in which the
    nodes are listed: rearranging the assignment leaves it unchanged. *)
Theorem calculate_frame_time_permutation (l l' : list Z) :
  l ≡ₚ l' -> calculate_frame_time l = calculate_frame_time l'.
Proof.
  intros H. pose proof (slot_total_perm l l' H) as Hs.
  pose proof (Permutation_length H) as Hlen.
  destruct l as [|x l], l' as [|x' l']; try done.
  rewrite !calculate_frame_time_cons. simpl length in Hlen. lia.
Qed.

Lemma calculate_frame_time_permutation_witness :
  calculate_frame_time [9; 2] = calculate_frame_time [2; 9].
Proof. apply (calculate_frame_time_permutation [9; 2] [2; 9]), perm_swap. Defined.

(** X6: what a node adds to the frame.  The first node costs its slot
    plus the first-slot gap and the guard time; every further node
    costs its slot plus one inter-slot gap, so a node without sensors
    appended to a non-empty assignment still costs 100 microseconds. *)
Theorem calculate_frame_time_append (y x : Z) (l : list Z) :
  calculate_frame_time [x]
  = calculate_frame_time [] + calculate_slot_width x
    + TDMA_FIRST_SLOT_GAP_US + TDMA_GUARD_TIME_US
  /\ calculate_frame_time ((y :: l) ++ [x])
     = calculate_frame_time (y :: l) + calculate_slot_width x + INTER_SLOT_GAP_US
  /\ calculate_frame_time ((y :: l) ++ [0])
     = calculate_frame_time (y :: l) + 100.
Proof.
  assert (forall z, calculate_frame_time ((y :: l) ++ [z])
                    = calculate_frame_time (y :: l) + calculate_slot_width z
                      + INTER_SLOT_GAP_US) as Happ.
  { intros z. rewrite <- app_comm_cons, !calculate_frame_time_cons.
    rewrite app_comm_cons, slot_total_app, length_app.
    change (slot_total [z]) with (calculate_slot_width z + 0).
    unfold INTER_SLOT_GAP_US. simpl length. lia. }
  split; [|split].
  - rewrite calculate_frame_time_cons, slot_total_cons.
    change (calculate_frame_time []) with 500. change (slot_total []) with 0.
    unfold TDMA_FIRST_SLOT_GAP_US, TDMA_GUARD_TIME_US. simpl length. lia.
  - apply Happ.
  - rewrite Happ. change (calculate_slot_width 0) with 0.
    unfold INTER_SLOT_GAP_US. lia.
Qed.

(** X7: an assignment of seven or more nodes that each carry at least
    one sensor never fits the frame period, however few sensors the
    nodes carry. *)
Theorem calculate_frame_time_seven_nodes_overrun (l : list Z) :
  Forall (fun c => 1 <= c) l -> (7 <= length l)%nat ->
  TDMA_FRAME_PERIOD_US < calculate_frame_time l.
Proof. apply frame_overrun. Qed.

Lemma calculate_frame_time_seven_nodes_overrun_witness :
  TDMA_FRAME_PERIOD_US < calculate_frame_time [1; 1; 1; 1; 1; 1; 1].
Proof.
  apply (calculate_frame_time_seven_nodes_overrun [1; 1; 1; 1; 1; 1; 1]).
  - repeat constructor; lia.
  - simpl. lia.
Defined.

(** X8: an assignment of at most six nodes, with non-negative counts
    that add up to at most [MAX_TOTAL_SENSORS], always fits the frame
    period, however the sensors are spread over the nodes. *)
Theorem calculate_frame_time_six_nodes_fit (l : list Z) :
  Forall (fun c => 0 <= c) l -> (length l <= 6)%nat ->
  sum_Z l <= MAX_TOTAL_SENSORS ->
  calculate_frame_time l <= TDMA_FRAME_PERIOD_US.
Proof. apply frame_fits. Qed.

Lemma calculate_frame_time_six_nodes_fit_witness :
  calculate_frame_time [11; 1; 1; 1; 1; 1] <= TDMA_FRAME_PERIOD_US.
Proof.
  apply (calculate_frame_time_six_nodes_fit [11; 1; 1; 1; 1; 1]).
  - repeat constructor; lia.
  - simpl. lia.
  - vm_compute. discriminate.
Defined.

(** X9: while every node carries between one and six sensors each slot
    has the minimum width, so the frame time depends on the number of
    nodes alone: beacon, first-slot gap and guard time, one minimum
    slot per node and one gap between consecutive slots. *)
Theorem calculate_frame_time_small_nodes (x : Z) (l : list Z) :
  Forall (fun c => 1 <= c <= 6) (x :: l) ->
  let k := Z.of_nat (length (x :: l)) in
  calculate_frame_time (x :: l)
  = TDMA_BEACON_DURATION_US + TDMA_FIRST_SLOT_GAP_US + TDMA_GUARD_TIME_US
    + k * TDMA_SLOT_MIN_WIDTH_US + (k - 1) * INTER_SLOT_GAP_US.
Proof.
  intros Hl k. subst k.
  rewrite calculate_frame_time_cons, (slot_total_small _ Hl).
  cbv [TDMA_BEACON_DURATION_US TDMA_FIRST_SLOT_GAP_US TDMA_GUARD_TIME_US
       TDMA_SLOT_MIN_WIDTH_US INTER_SLOT_GAP_US].
  simpl length. lia.
Qed.

Lemma calculate_frame_time_small_nodes_witness :
  calculate_frame_time [6; 1; 4]
  = TDMA_BEACON_DURATION_US + TDMA_FIRST_SLOT_GAP_US + TDMA_GUARD_TIME_US
    + 3 * TDMA_SLOT_MIN_WIDTH_US + (3 - 1) * INTER_SLOT_GAP_US.
Proof.
  apply (calculate_frame_time_small_nodes 6 [1; 4]).
  repeat constructor; lia.
Defined.

(** ** What the simulation measures *)

Section feasibility.
Implicit Types (g : rng) (a : Acc).

(** One trial on a pair the loops of [run] can reach: the partition
    it draws and the accumulators it leaves. *)
Lemma trial_ok (total nodes : Z) a g :
  1 <= total -> 1 <= nodes <= total ->
  exists counts g',
    length counts = Z.to_nat nodes
    /\ sum_Z counts = total
    /\ Forall (fun c => 1 <= c <= total) counts
    /\ trial total nodes a g
       = Some (mkAcc (if calculate_frame_time counts <=? TDMA_FRAME_PERIOD_US
                      then ok_count a + 1 else ok_count a)
                     (frame_sum a + calculate_frame_time counts)
                     (Z.max (frame_max a) (calculate_frame_time counts)), g').
Proof.
  intros Ht Hn. unfold trial.
  destruct (random_partition_ok total nodes g Ht Hn)
    as (counts & g' & -> & Hlen & Hsum & Hall).
  exists counts, g'. repeat split; assumption || reflexivity.
Qed.


(** On a pair with at most six nodes every trial fits. *)
Lemma trials_all_fit (total nodes : Z) (n : nat) :
  1 <= total <= 16 -> 1 <= nodes <= total -> nodes <= 6 ->
  forall a g, frame_max a <= 20000 ->
  exists a' g',
    trials n total nodes a g = Some (a', g')
    /\ ok_count a' = ok_count a + Z.of_nat n
    /\ frame_max a' <= 20000.
Proof.
  intros Ht Hn H6. induction n as [|n IH]; intros a g Ha.
  - exists a, g. split; [reflexivity|]. lia.
  - destruct (trial_ok total nodes a g ltac:(lia) Hn)
      as (counts & g1 & Hlen & Hsum & Hall & Htrial).
    assert (calculate_frame_time counts <= 20000) as Hfit.
    { apply frame_fits; [|lia|lia].
      eapply Forall_impl; [exact Hall|]. simpl. intros; lia. }
    cbn [trials]. rewrite Htrial. cbn [mbind option_bind].
    unfold TDMA_FRAME_PERIOD_US, TDMA_FRAME_PERIOD_MS.
    change (20 * 1000) with 20000.
    destruct (Z.leb_spec (calculate_frame_time counts) 20000); [|lia].
    destruct (IH (mkAcc (ok_count a + 1)
                        (frame_sum a + calculate_frame_time counts)
                        (Z.max (frame_max a) (calculate_frame_time counts))) g1)
      as (a' & g' & -> & Hok & Hmax); [cbn [frame_max]; lia|].
    cbn [ok_count] in Hok.
    exists a', g'. split; [reflexivity|]. lia.
Qed.

(** On a pair with seven or more nodes no trial fits. *)
Lemma trials_none_fit (total nodes : Z) (n : nat) :
  1 <= total -> 7 <= nodes <= total ->
  forall a g, exists a' g',
    trials n total nodes a g = Some (a', g')
    /\ ok_count a' = ok_count a
    /\ frame_max a <= frame_max a'
    /\ ((0 < n)%nat -> 20000 < frame_max a').
Proof.
  intros Ht Hn. induction n as [|n IH]; intros a g.
  - exists a, g. split; [reflexivity|]. lia.
  - destruct (trial_ok total nodes a g Ht ltac:(lia))
      as (counts & g1 & Hlen & Hsum & Hall & Htrial).
    assert (20000 < calculate_frame_time counts) as Hover.
    { apply frame_overrun; [|lia].
      eapply Forall_impl; [exact Hall|]. simpl. intros; lia. }
    cbn [trials]. rewrite Htrial. cbn [mbind option_bind].
    unfold TDMA_FRAME_PERIOD_US, TDMA_FRAME_PERIOD_MS.
    change (20 * 1000) with 20000.
    destruct (Z.leb_spec (calculate_frame_time counts) 20000); [lia|].
    destruct (IH (mkAcc (ok_count a)
                        (frame_sum a + calculate_frame_time counts)
                        (Z.max (frame_max a) (calculate_frame_time counts))) g1)
      as (a' & g' & -> & Hok & Hmax & _).
    cbn [ok_count frame_max] in Hok, Hmax.
    exists a', g'. split; [reflexivity|]. lia.
Qed.

(** The row of a pair with at most six nodes. *)
Lemma run_pair_feasible (total nodes : Z) g :
  1 <= total <= 16 -> 1 <= nodes <= total -> nodes <= 6 ->
  exists r g',
    run_pair total nodes g = Some (r, g')
    /\ schedule_ok_rate r = 1%float
    /\ est_success_rate r = 0.999%float
    /\ max_frame_us r <= 20000.
Proof.
  intros Ht Hn H6. unfold run_pair.
  destruct (trials_all_fit total nodes (Z.to_nat RANDOM_DISTRIBUTIONS)
              Ht Hn H6 (mkAcc 0 0 0) g ltac:(cbn [frame_max]; lia))
    as (a & g' & -> & Hok & Hmax).
  cbn [mbind option_bind]. exists (report total nodes a), g'.
  split; [reflexivity|]. unfold report.
  cbn [schedule_ok_rate est_success_rate max_frame_us].
  rewrite Hok. cbn [ok_count].
  split; [vm_compute; reflexivity|]. split; [vm_compute; reflexivity|].
  exact Hmax.
Qed.

(** The row of a pair with seven or more nodes. *)
Lemma run_pair_infeasible (total nodes : Z) g :
  1 <= total -> 7 <= nodes <= total ->
  exists r g',
    run_pair total nodes g = Some (r, g')
    /\ schedule_ok_rate r = 0%float
    /\ est_success_rate r = 0%float
    /\ 20000 < max_frame_us r.
Proof.
  intros Ht Hn. unfold run_pair.
  destruct (trials_none_fit total nodes (Z.to_nat RANDOM_DISTRIBUTIONS)
              Ht Hn (mkAcc 0 0 0) g)
    as (a & g' & -> & Hok & _ & Hmax).
  cbn [mbind option_bind]. exists (report total nodes a), g'.
  split; [reflexivity|]. unfold report.
  cbn [schedule_ok_rate est_success_rate max_frame_us].
  rewrite Hok. cbn [ok_count].
  split; [vm_compute; reflexivity|]. split; [vm_compute; reflexivity|].
  apply Hmax. unfold RANDOM_DISTRIBUTIONS. lia.
Qed.

End feasibility.

Section report_rows.

(** What a row of [run] reports is decided by its node count alone. *)
Lemma row_verdict (r : Result) :
  from_run_pair r -> pair_of r ∈ run_pairs ->
  (node_count r <= 6 ->
   schedule_ok_rate r = 1%float
   /\ est_success_rate r = 0.999%float
   /\ max_frame_us r <= 20000)
  /\ (7 <= node_count r ->
      schedule_ok_rate r = 0%float
      /\ est_success_rate r = 0%float
      /\ 20000 < max_frame_us r).
Proof.
  intros (g1 & g2 & Hr) Hin. apply run_pairs_bounds in Hin.
  unfold MAX_TOTAL_SENSORS, MAX_NODES in Hin.
  split; intros Hn.
  - destruct (run_pair_feasible (total_sensors r) (node_count r) g1)
      as (r' & g' & Hr' & H); [lia..|].
    assert (r = r') as <- by congruence. exact H.
  - destruct (run_pair_infeasible (total_sensors r) (node_count r) g1)
      as (r' & g' & Hr' & H); [lia..|].
    assert (r = r') as <- by congruence. exact H.
Qed.



(** The rows of a run, with what is known of each. *)
Lemma run_rows_known (g : rng) :
  exists results g',
    run g = Some (results, g')
    /\ pair_of <$> results = run_pairs
    /\ Forall (fun r => from_run_pair r /\ pair_of r ∈ run_pairs) results.
Proof.
  destruct (run_ok g) as (results & g' & Hrun & Hrows).
  pose proof (run_rows g results g' Hrun) as Hall.
  exists results, g'. split; [exact Hrun|]. split; [exact Hrows|].
  clear Hrun. rewrite Forall_forall in Hall |- *. intros r Hr.
  split; [exact (Hall r Hr)|].
  rewrite <- Hrows. apply list_elem_of_fmap. exists r. split; [reflexivity|exact Hr].
Qed.

(** The estimate reaches 0.99 exactly from 991 fitting trials on. *)
Lemma meets_target_by_count :
  forallb (fun k =>
             Bool.eqb (0.99 <=? estimated_success_rate
                                  (truediv k RANDOM_DISTRIBUTIONS))%float
                      (991 <=? k))
          (seqZ 0 1001) = true.
Proof. vm_compute. reflexivity. Qed.

End report_rows.



(** X11: whatever the generator does, the verdict of every row [run]
    reports is decided by its node count.  With at most six nodes every
    trial fits: the schedule-ok rate is 1.0, the estimate 0.999 and the
    largest frame within the period.  With seven or eight nodes no
    trial fits: both rates are 0.0 and the largest frame exceeds the
    period. *)
Theorem run_rows_verdict (g : rng) :
  exists results g',
    run g = Some (results, g')
    /\ Forall (fun r =>
         (node_count r <= 6 ->
          schedule_ok_rate r = 1%float
          /\ est_success_rate r = 0.999%float
          /\ max_frame_us r <= TDMA_FRAME_PERIOD_US)
         /\ (7 <= node_count r ->
             schedule_ok_rate r = 0%float
             /\ est_success_rate r = 0%float
             /\ TDMA_FRAME_PERIOD_US < max_frame_us r))
       results.
Proof.
  destruct (run_rows_known g) as (results & g' & Hrun & _ & Hall).
  exists results, g'. split; [exact Hrun|]. clear Hrun.
  eapply Forall_impl; [exact Hall|].
  intros r [Hf Hin]. exact (row_verdict r Hf Hin).
Qed.


(** X13: a row is listed as meeting the target exactly when at least
    991 of its 1000 trials fit the frame: the 0.99 threshold on
    [schedule_ok * 0.999] tolerates nine failing trials and no more. *)
Theorem meets_target_threshold (total nodes : Z) (a : Acc) :
  0 <= ok_count a <= RANDOM_DISTRIBUTIONS ->
  meets_target (report total nodes a) = (991 <=? ok_count a).
Proof.
  intros Hk. pose proof meets_target_by_count as H.
  rewrite forallb_forall in H. specialize (H (ok_count a)).
  apply Bool.eqb_prop. apply H.
  apply list_elem_of_In, elem_of_seqZ. unfold RANDOM_DISTRIBUTIONS in Hk. lia.
Qed.

Lemma meets_target_threshold_witness :
  meets_target (report 12 5 (mkAcc 990 0 0)) = (991 <=? ok_count (mkAcc 990 0 0)).
Proof.
  apply (meets_target_threshold 12 5 (mkAcc 990 0 0)). vm_compute.
  split; discriminate.
Defined.

(** ** Error and edge behaviour of the partition *)



(** ** Calibration summary *)

Section calibration.




End calibration.


